(** * PoseSE2: poses of the plane as elements of SE(2)

    A shallow embedding of [graphslam/pose/se2.py].

    A [PoseSE2] is a NumPy array of three [float64] entries
    [x, y, theta].  The entries are modelled as real numbers ([R] of the
    Standard Library): the statements below are the exact identities that
    the floating-point code approximates up to rounding.  [np.cos],
    [np.sin] are [cos], [sin]; [math.atan2] is defined from [atan] by the
    usual case distinction on the quadrant. *)

From Stdlib Require Import Reals Lra List.
Import ListNotations.

Local Open Scope R_scope.

(** ** NumPy values *)

(** What can reach the constructor as a component: a [float64] scalar, or a
    one-dimensional array ([np.cos] applied to a Python list returns an
    array). *)
Inductive ndvalue : Type :=
| Scalar (r : R)
| Array (l : list R).

(** [np.cos] on a Python list: element-wise, the result is an array. *)
Definition np_cos_list (l : list R) : list R := map cos l.

(** Broadcasting of [s * a] and [s - a] for a scalar [s] and an array [a]. *)
Definition scalar_mul_array (s : R) (a : list R) : list R :=
  map (fun v => s * v) a.

Definition scalar_sub_array (s : R) (a : list R) : list R :=
  map (fun v => s - v) a.

(** Storing a value in one slot of the array that
    [np.array([...], dtype=np.float64)] builds: a scalar is stored as it
    is; an array among the elements makes the list inhomogeneous and is
    refused with a [ValueError] ("setting an array element with a
    sequence"), also when it has one element only.  (NumPy releases before
    1.24 converted a one-element array to its element instead.) *)
Definition to_float64 (v : ndvalue) : option R :=
  match v with
  | Scalar r => Some r
  | Array _ => None
  end.

(** ** Poses *)

(** The three entries [self[0]], [self[1]], [self[2]]. *)
Record PoseSE2 : Type := mkPose {
  pose_x : R;
  pose_y : R;
  pose_theta : R
}.

(** [PoseSE2.__new__(cls, position, orientation)] with
    [position = [p0, p1]]:
    [np.array([position[0], position[1], orientation], dtype=np.float64)].
    When both position entries are scalars this is [mkPose]. *)
Definition __new__ (p0 p1 : ndvalue) (orientation : R) : option PoseSE2 :=
  match to_float64 p0, to_float64 p1 with
  | Some x, Some y => Some (mkPose x y orientation)
  | _, _ => None
  end.

(** [to_array] and [to_compact]: both are [np.array(self)]. *)
Definition to_array (self : PoseSE2) : list R :=
  [pose_x self; pose_y self; pose_theta self].

Definition to_compact (self : PoseSE2) : list R :=
  [pose_x self; pose_y self; pose_theta self].

(** ** 3x3 matrices *)

Inductive index : Type := I0 | I1 | I2.

Record Mat3 : Type := mkMat3 {
  m00 : R; m01 : R; m02 : R;
  m10 : R; m11 : R; m12 : R;
  m20 : R; m21 : R; m22 : R
}.

(** [matrix[i, j]] *)
Definition entry (M : Mat3) (i j : index) : R :=
  match i, j with
  | I0, I0 => m00 M | I0, I1 => m01 M | I0, I2 => m02 M
  | I1, I0 => m10 M | I1, I1 => m11 M | I1, I2 => m12 M
  | I2, I0 => m20 M | I2, I1 => m21 M | I2, I2 => m22 M
  end.

Definition mat_of_fun (f : index -> index -> R) : Mat3 :=
  mkMat3 (f I0 I0) (f I0 I1) (f I0 I2)
         (f I1 I0) (f I1 I1) (f I1 I2)
         (f I2 I0) (f I2 I1) (f I2 I2).

(** [np.dot(A, B)] on 3x3 arrays: the matrix product. *)
Definition mat_mul (A B : Mat3) : Mat3 :=
  mat_of_fun (fun i j =>
    entry A i I0 * entry B I0 j
    + entry A i I1 * entry B I1 j
    + entry A i I2 * entry B I2 j).

Definition mat_id : Mat3 :=
  mkMat3 1 0 0
         0 1 0
         0 0 1.

Definition det (M : Mat3) : R :=
  m00 M * (m11 M * m22 M - m12 M * m21 M)
  - m01 M * (m10 M * m22 M - m12 M * m20 M)
  + m02 M * (m10 M * m21 M - m11 M * m20 M).

(** [np.linalg.inv]: the inverse of a matrix, here by the adjugate
    formula.  [mat_inv_l] and [mat_inv_r] below show that it is the
    two-sided inverse whenever the determinant is not zero. *)
Definition mat_inv (M : Mat3) : Mat3 :=
  let d := det M in
  mkMat3
    ((m11 M * m22 M - m12 M * m21 M) / d)
    ((m02 M * m21 M - m01 M * m22 M) / d)
    ((m01 M * m12 M - m02 M * m11 M) / d)
    ((m12 M * m20 M - m10 M * m22 M) / d)
    ((m00 M * m22 M - m02 M * m20 M) / d)
    ((m02 M * m10 M - m00 M * m12 M) / d)
    ((m10 M * m21 M - m11 M * m20 M) / d)
    ((m01 M * m20 M - m00 M * m21 M) / d)
    ((m00 M * m11 M - m01 M * m10 M) / d).

(** ** [math.atan2] *)

(** The angle in (-PI, PI] of the point [(x, y)]; [atan2 0 0 = 0]. *)
Definition atan2 (y x : R) : R :=
  if Rlt_dec 0 x then atan (y / x)
  else if Rlt_dec x 0 then
    if Rle_dec 0 y then atan (y / x) + PI else atan (y / x) - PI
  else
    if Rlt_dec 0 y then PI / 2
    else if Rlt_dec y 0 then - (PI / 2)
    else 0.

(** ** The operations of [PoseSE2] *)

Definition to_matrix (self : PoseSE2) : Mat3 :=
  mkMat3
    (cos (pose_theta self)) (- sin (pose_theta self)) (pose_x self)
    (sin (pose_theta self)) (cos (pose_theta self)) (pose_y self)
    0 0 1.

Definition from_matrix (matrix : Mat3) : PoseSE2 :=
  mkPose (entry matrix I0 I2) (entry matrix I1 I2)
         (atan2 (entry matrix I1 I0) (entry matrix I0 I0)).

(** [position] is [np.array(self[:2])]. *)
Definition position (self : PoseSE2) : list R :=
  [pose_x self; pose_y self].

Definition orientation (self : PoseSE2) : R := pose_theta self.

(** The second position entry is built with [np.cos([self[2]])], the cosine
    of a one-element list, where the three other calls of the expression are
    [np.sin(self[2])] and [np.cos(self[2])]: this entry is a one-element
    array, and it is passed as such to the constructor. *)
Definition inverse (self : PoseSE2) : option PoseSE2 :=
  __new__
    (Scalar (- pose_x self * cos (pose_theta self)
             - pose_y self * sin (pose_theta self)))
    (Array (scalar_sub_array (pose_x self * sin (pose_theta self))
              (scalar_mul_array (pose_y self)
                 (np_cos_list [pose_theta self]))))
    (- pose_theta self).

(** The constructor is applied to scalars here and in [from_matrix]: it
    cannot fail ([new_scalars]) and the result is written with [mkPose]. *)
Definition __add__ (self other : PoseSE2) : PoseSE2 :=
  mkPose
    (pose_x self + pose_x other * cos (pose_theta self)
     - pose_y other * sin (pose_theta self))
    (pose_y self + pose_x other * sin (pose_theta self)
     + pose_y other * cos (pose_theta self))
    (pose_theta self + pose_theta other).

(** [other.inverse + self] *)
Definition __sub__ (self other : PoseSE2) : option PoseSE2 :=
  match inverse other with
  | Some q => Some (__add__ q self)
  | None => None
  end.

Definition identity_pose : PoseSE2 := mkPose 0 0 0.

(** The pose [(- x cos theta - y sin theta, x sin theta - y cos theta,
    - theta)]: the closed form of the inverse, every entry a scalar.  Its
    matrix is the inverse of the matrix of the pose
    ([to_matrix_inverse_pose]). *)
Definition inv_pose (p : PoseSE2) : PoseSE2 :=
  mkPose (- pose_x p * cos (pose_theta p) - pose_y p * sin (pose_theta p))
         (pose_x p * sin (pose_theta p) - pose_y p * cos (pose_theta p))
         (- pose_theta p).

(** The matrices of the form that the docstrings call an SE(2) matrix: a
    rotation block [[c, -s], [s, c]] with [c * c + s * s = 1], any last
    column, and the last row [0 0 1]. *)
Definition is_SE2 (M : Mat3) : Prop :=
  m11 M = m00 M /\ m01 M = - m10 M
  /\ m00 M * m00 M + m10 M * m10 M = 1
  /\ m20 M = 0 /\ m21 M = 0 /\ m22 M = 1.

(** The square of the distance between the positions of two poses. *)
Definition sq_dist (p q : PoseSE2) : R :=
  (pose_x p - pose_x q) * (pose_x p - pose_x q)
  + (pose_y p - pose_y q) * (pose_y p - pose_y q).

(** * Properties *)

(** ** The constructor *)

Lemma new_scalars (x y o : R) :
  __new__ (Scalar x) (Scalar y) o = Some (mkPose x y o).
Proof. reflexivity. Qed.

(** An array as second position entry is refused. *)
Lemma new_array (p0 : ndvalue) (l : list R) (o : R) :
  __new__ p0 (Array l) o = None.
Proof. unfold __new__. destruct (to_float64 p0); reflexivity. Qed.

Lemma inverse_None (p : PoseSE2) : inverse p = None.
Proof. unfold inverse. apply new_array. Qed.

Lemma sub_None (p1 p2 : PoseSE2) : __sub__ p1 p2 = None.
Proof. unfold __sub__. rewrite inverse_None. reflexivity. Qed.

(** ** Matrices *)

Lemma Mat3_eq (A B : Mat3) :
  (forall i j, entry A i j = entry B i j) -> A = B.
Proof.
  intros H. destruct A, B.
  pose proof (H I0 I0); pose proof (H I0 I1); pose proof (H I0 I2).
  pose proof (H I1 I0); pose proof (H I1 I1); pose proof (H I1 I2).
  pose proof (H I2 I0); pose proof (H I2 I1); pose proof (H I2 I2).
  simpl in *. congruence.
Qed.

Ltac mat_entries :=
  apply Mat3_eq; intros i j; destruct i, j; cbn.

Lemma mat_mul_id_l (A : Mat3) : mat_mul mat_id A = A.
Proof. mat_entries; ring. Qed.

Lemma mat_mul_id_r (A : Mat3) : mat_mul A mat_id = A.
Proof. mat_entries; ring. Qed.

Lemma mat_mul_assoc (A B C : Mat3) :
  mat_mul (mat_mul A B) C = mat_mul A (mat_mul B C).
Proof. mat_entries; ring. Qed.

Lemma mat_inv_r (M : Mat3) : det M <> 0 -> mat_mul M (mat_inv M) = mat_id.
Proof.
  intros Hd. mat_entries; unfold det in *; field; exact Hd.
Qed.

Lemma mat_inv_l (M : Mat3) : det M <> 0 -> mat_mul (mat_inv M) M = mat_id.
Proof.
  intros Hd. mat_entries; unfold det in *; field; exact Hd.
Qed.

(** A left inverse of an invertible matrix is [mat_inv]. *)
Lemma mat_inv_unique (M N : Mat3) :
  det M <> 0 -> mat_mul N M = mat_id -> N = mat_inv M.
Proof.
  intros Hd HN.
  rewrite <- (mat_mul_id_r N), <- (mat_inv_r M Hd), <- mat_mul_assoc, HN.
  apply mat_mul_id_l.
Qed.

Create Rewrite HintDb trig.
#[export] Hint Rewrite cos_neg sin_neg cos_plus sin_plus cos_0 sin_0 : trig.

Lemma sin2_cos2' (t : R) : cos t * cos t + sin t * sin t = 1.
Proof. pose proof (sin2_cos2 t) as H. unfold Rsqr in H. lra. Qed.

Lemma det_to_matrix (p : PoseSE2) : det (to_matrix p) = 1.
Proof.
  unfold det; cbn. pose proof (sin2_cos2' (pose_theta p)). lra.
Qed.

Lemma to_matrix_add (p1 p2 : PoseSE2) :
  to_matrix (__add__ p1 p2) = mat_mul (to_matrix p1) (to_matrix p2).
Proof.
  mat_entries; autorewrite with trig; ring.
Qed.

Lemma to_matrix_inverse_pose (p : PoseSE2) :
  to_matrix (inv_pose p) = mat_inv (to_matrix p).
Proof.
  pose proof (sin2_cos2' (pose_theta p)) as H.
  unfold inv_pose.
  mat_entries; autorewrite with trig;
    replace (det (to_matrix p)) with 1 by (symmetry; apply det_to_matrix);
    nra.
Qed.

(** ** [atan2] on the unit circle *)

(** The angle [atan t] has a positive cosine and tangent [t]. *)
Lemma atan_cos_sin (t : R) :
  0 < cos (atan t) /\ sin (atan t) = t * cos (atan t).
Proof.
  pose proof (atan_bound t) as [Hlo Hhi].
  assert (Hc : 0 < cos (atan t)) by (apply cos_gt_0; lra).
  split; [exact Hc|].
  pose proof (tan_atan t) as Ht. unfold tan in Ht.
  rewrite <- Ht at 2. field. lra.
Qed.

(** A point [(c, s)] of the unit circle in the right half plane. *)
Lemma atan_unit_circle (c s : R) :
  c * c + s * s = 1 -> 0 < c ->
  cos (atan (s / c)) = c /\ sin (atan (s / c)) = s.
Proof.
  intros Hcs Hc.
  destruct (atan_cos_sin (s / c)) as [Hpos Hsin].
  pose proof (sin2_cos2' (atan (s / c))) as Hb.
  set (cb := cos (atan (s / c))) in *.
  set (sb := sin (atan (s / c))) in *.
  assert (H1 : sb * c = s * cb) by (rewrite Hsin; field; lra).
  assert (H2 : cb * cb = c * c).
  { assert (H3 : (sb * c) * (sb * c) = (s * cb) * (s * cb)) by (rewrite H1; ring).
    assert (H4 : sb * sb = 1 - cb * cb) by lra.
    assert (H5 : s * s = 1 - c * c) by lra.
    replace ((sb * c) * (sb * c)) with ((sb * sb) * (c * c)) in H3 by ring.
    replace ((s * cb) * (s * cb)) with ((s * s) * (cb * cb)) in H3 by ring.
    rewrite H4, H5 in H3. lra. }
  assert (H6 : cb = c).
  { assert (H7 : (cb - c) * (cb + c) = 0) by (ring_simplify; lra).
    apply Rmult_integral in H7. lra. }
  split; [exact H6|].
  rewrite H6 in H1. apply Rmult_eq_reg_r with c; lra.
Qed.

(** Two angles of (-PI, PI] with the same cosine and sine are equal. *)
Lemma cos_sin_inj (a b : R) :
  - PI < a <= PI -> - PI < b <= PI ->
  cos a = cos b -> sin a = sin b -> a = b.
Proof.
  intros Ha Hb Hc Hs.
  pose proof (cos_2a_sin ((a - b) / 2)) as H.
  replace (2 * ((a - b) / 2)) with (a - b) in H by field.
  rewrite cos_minus, Hc, Hs in H.
  pose proof (sin2_cos2' b) as Hb1.
  assert (H0 : sin ((a - b) / 2) = 0).
  { assert (Hsq : sin ((a - b) / 2) * sin ((a - b) / 2) = 0) by lra.
    apply Rmult_integral in Hsq. lra. }
  destruct (Rtotal_order ((a - b) / 2) 0) as [Hlt | [Heq | Hgt]].
  - pose proof (sin_lt_0_var ((a - b) / 2)). lra.
  - lra.
  - pose proof (sin_gt_0 ((a - b) / 2)). lra.
Qed.

(** [atan2] returns the angle of (-PI, PI] of a point of the unit
    circle. *)
Lemma atan2_unit_circle (c s : R) :
  c * c + s * s = 1 ->
  - PI < atan2 s c <= PI /\ cos (atan2 s c) = c /\ sin (atan2 s c) = s.
Proof.
  intros Hcs. pose proof PI_RGT_0 as Hpi. unfold atan2.
  destruct (Rlt_dec 0 c) as [Hc | Hc].
  - (* right half plane *)
    pose proof (atan_bound (s / c)).
    destruct (atan_unit_circle c s Hcs Hc) as [-> ->]. lra.
  - destruct (Rlt_dec c 0) as [Hc' | Hc'].
    + (* left half plane: the angle of the opposite point, turned by PI *)
      assert (Hopp : s / c = (- s) / (- c)) by (field; lra).
      assert (Hcs' : (- c) * (- c) + (- s) * (- s) = 1) by lra.
      assert (Hc2 : 0 < - c) by lra.
      destruct (atan_unit_circle (- c) (- s) Hcs' Hc2) as [Hcos Hsin].
      rewrite <- Hopp in Hcos, Hsin.
      pose proof (atan_bound (s / c)) as [Hlo Hhi].
      destruct (Rle_dec 0 s) as [Hs | Hs].
      * rewrite neg_cos, neg_sin, Hcos, Hsin.
        assert (atan (s / c) <= 0).
        { destruct (Rle_or_lt (atan (s / c)) 0) as [Hle | Hgt]; [exact Hle|].
          pose proof (sin_gt_0 (atan (s / c))). lra. }
        lra.
      * replace (atan (s / c) - PI) with (- (PI - atan (s / c))) by ring.
        rewrite cos_neg, sin_neg.
        replace (PI - atan (s / c)) with (- atan (s / c) + PI) by ring.
        rewrite neg_cos, neg_sin, cos_neg, sin_neg, Hcos, Hsin.
        assert (0 < atan (s / c)).
        { destruct (Rtotal_order (atan (s / c)) 0) as [Hlt | [Heq | Hgt]].
          - pose proof (sin_lt_0_var (atan (s / c))). lra.
          - rewrite Heq, sin_0 in Hsin. lra.
          - exact Hgt. }
        lra.
    + (* on the vertical axis *)
      assert (c = 0) by lra. subst c.
      assert (Hs2 : (s - 1) * (s + 1) = 0) by (ring_simplify; lra).
      apply Rmult_integral in Hs2.
      destruct (Rlt_dec 0 s) as [Hs | Hs].
      * rewrite cos_PI2, sin_PI2. lra.
      * destruct (Rlt_dec s 0) as [Hs' | Hs'].
        -- rewrite cos_neg, sin_neg, cos_PI2, sin_PI2. lra.
        -- lra.
Qed.

Lemma atan2_sin_cos (t : R) :
  - PI < t <= PI -> atan2 (sin t) (cos t) = t.
Proof.
  intros Ht.
  destruct (atan2_unit_circle (cos t) (sin t) (sin2_cos2' t)) as (Hr & Hc & Hs).
  apply cos_sin_inj; assumption.
Qed.

(** ** The scenarios of the tests *)

Example to_matrix_example :
  to_matrix (mkPose 1 2 1) =
  mkMat3 (cos 1) (- sin 1) 1
         (sin 1) (cos 1) 2
         0 0 1.
Proof. reflexivity. Qed.

Example orientation_example : orientation (mkPose 1 2 (3 / 2)) = 3 / 2.
Proof. reflexivity. Qed.

Lemma add_identity_r (p : PoseSE2) : __add__ p identity_pose = p.
Proof.
  destruct p as [x y t]. unfold __add__; cbn. f_equal; ring.
Qed.

Lemma add_identity_l (p : PoseSE2) : __add__ identity_pose p = p.
Proof.
  destruct p as [x y t]. unfold __add__; cbn.
  autorewrite with trig. f_equal; ring.
Qed.

(** The angle of a composition leaves (-PI, PI]. *)
Example add_angle_not_wrapped :
  pose_theta (__add__ (mkPose 0 0 PI) (mkPose 0 0 PI)) = 2 * PI
  /\ PI < 2 * PI.
Proof. cbn. pose proof PI_RGT_0. split; lra. Qed.

(** An angle outside (-PI, PI] does not survive the way through the
    matrix. *)
Example round_trip_wraps :
  from_matrix (to_matrix (mkPose 0 0 (2 * PI))) = mkPose 0 0 0.
Proof.
  unfold from_matrix; cbn. rewrite cos_2PI, sin_2PI.
  unfold atan2. destruct (Rlt_dec 0 1) as [_ | H]; [|lra].
  replace (0 / 1) with 0 by field. rewrite atan_0. reflexivity.
Qed.

(** * The operations of the pose algebra *)

(** C1. Composition is a homomorphism into the matrix product: the matrix
    of [p1 + p2] is the product of the matrices of [p1] and [p2], and the
    angle of [p1 + p2] is the plain sum of the two angles, not reduced to
    any range. *)
Theorem add_matrix_homomorphism (p1 p2 : PoseSE2) :
  to_matrix (__add__ p1 p2) = mat_mul (to_matrix p1) (to_matrix p2)
  /\ pose_theta (__add__ p1 p2) = pose_theta p1 + pose_theta p2.
Proof.
  split; [apply to_matrix_add | reflexivity].
Qed.

(** C2. [inverse] returns no pose: for every pose, the second position
    entry that it hands to the constructor is the one-element array made by
    [np.cos([self[2]])], and the constructor refuses it.  The pose that the
    closed form describes, [(- x cos theta - y sin theta,
    x sin theta - y cos theta, - theta)], does have the inverse matrix. *)
Theorem inverse_raises (p : PoseSE2) :
  inverse p = None
  /\ to_matrix (inv_pose p) = mat_inv (to_matrix p).
Proof. split; [apply inverse_None | apply to_matrix_inverse_pose]. Qed.

(** C3. [p1 - p2] returns no pose: it evaluates [p2.inverse] first, which
    raises.  The closed form of the inverse of [p2] composed with [p1] does
    have the matrix [inv (to_matrix p2) * to_matrix p1]. *)
Theorem sub_raises (p1 p2 : PoseSE2) :
  __sub__ p1 p2 = None
  /\ to_matrix (__add__ (inv_pose p2) p1)
     = mat_mul (mat_inv (to_matrix p2)) (to_matrix p1).
Proof.
  split; [apply sub_None|].
  rewrite to_matrix_add, to_matrix_inverse_pose. reflexivity.
Qed.

(** C4. Converting a pose to its matrix and back keeps [x] and [y], and
    gives an angle of (-PI, PI] with the cosine and the sine of the angle of
    the pose; a pose whose angle is in (-PI, PI] is returned unchanged. *)
Theorem matrix_round_trip (p : PoseSE2) :
  pose_x (from_matrix (to_matrix p)) = pose_x p
  /\ pose_y (from_matrix (to_matrix p)) = pose_y p
  /\ - PI < pose_theta (from_matrix (to_matrix p)) <= PI
  /\ cos (pose_theta (from_matrix (to_matrix p))) = cos (pose_theta p)
  /\ sin (pose_theta (from_matrix (to_matrix p))) = sin (pose_theta p)
  /\ (- PI < pose_theta p <= PI -> from_matrix (to_matrix p) = p).
Proof.
  destruct p as [x y t]; cbn.
  destruct (atan2_unit_circle (cos t) (sin t) (sin2_cos2' t)) as (Hr & Hc & Hs).
  repeat split; try tauto.
  intros Ht. unfold from_matrix; cbn. rewrite atan2_sin_cos; tauto.
Qed.

Lemma matrix_round_trip_witness :
  - PI < 1 <= PI
  /\ from_matrix (to_matrix (mkPose 1 2 1)) = mkPose 1 2 1.
Proof.
  assert (H : - PI < 1 <= PI).
  { pose proof PI2_1. pose proof PI_RGT_0. split; lra. }
  split; [exact H|].
  exact (proj2 (proj2 (proj2 (proj2 (proj2
           (matrix_round_trip (mkPose 1 2 1)))))) H).
Defined.

(** C5. Neither [p.inverse + p] nor [p - p] returns a pose, because
    [p.inverse] raises.  The closed form of the inverse composed with [p] is
    the identity pose [(0, 0, 0)]. *)
Theorem inverse_compose_raises (p : PoseSE2) :
  option_map (fun q => __add__ q p) (inverse p) = None
  /\ __sub__ p p = None
  /\ __add__ (inv_pose p) p = identity_pose.
Proof.
  split; [rewrite inverse_None; reflexivity|].
  split; [apply sub_None|].
  unfold __add__, inv_pose, identity_pose; cbn. autorewrite with trig.
  f_equal; ring.
Qed.

(** C6. Composition is not commutative: there are two different poses
    whose compositions in the two orders differ. *)
Theorem add_not_commutative :
  exists p1 p2 : PoseSE2, p1 <> p2 /\ __add__ p1 p2 <> __add__ p2 p1.
Proof.
  exists (mkPose 1 0 0), (mkPose 0 0 PI). split.
  - intros H. injection H as H1 _. lra.
  - unfold __add__; cbn. rewrite cos_0, sin_0, cos_PI, sin_PI.
    intros H. injection H as H1 _. lra.
Qed.

(** C7. The accessors return the stored components: for the pose built
    from the position [(x, y)] and the orientation [theta], [position] is
    [(x, y)] and [orientation] is [theta]. *)
Theorem accessors_identity (x y theta : R) :
  exists p,
    __new__ (Scalar x) (Scalar y) theta = Some p
    /\ position p = [x; y]
    /\ orientation p = theta.
Proof.
  eexists. split; [apply new_scalars|]. split; reflexivity.
Qed.

(** C8. [to_array] and [to_compact] return the same array of three
    elements, [[x, y, theta]]. *)
Theorem to_array_to_compact (p : PoseSE2) :
  to_array p = to_compact p
  /\ to_array p = [pose_x p; pose_y p; pose_theta p]
  /\ length (to_array p) = 3%nat.
Proof. repeat split. Qed.

(** C9. Composition is associative. *)
Theorem add_assoc (p1 p2 p3 : PoseSE2) :
  __add__ (__add__ p1 p2) p3 = __add__ p1 (__add__ p2 p3).
Proof.
  unfold __add__; cbn. autorewrite with trig. f_equal; ring.
Qed.

(** C10. [from_matrix] reads only the entries [0][2], [1][2], [1][0] and
    [0][0]: two matrices that agree on these four entries give the same
    pose, whatever their other entries are. *)
Theorem from_matrix_four_entries (M N : Mat3) :
  entry M I0 I2 = entry N I0 I2 ->
  entry M I1 I2 = entry N I1 I2 ->
  entry M I1 I0 = entry N I1 I0 ->
  entry M I0 I0 = entry N I0 I0 ->
  from_matrix M = from_matrix N.
Proof.
  intros H02 H12 H10 H00. unfold from_matrix.
  rewrite H02, H12, H10, H00. reflexivity.
Qed.

(** A matrix with the four entries of the identity matrix that is the
    matrix of no pose (its last row is not [0 0 1], its rotation block is
    not orthogonal) is read as the identity pose. *)
Lemma from_matrix_four_entries_witness :
  (forall p, to_matrix p <> mkMat3 1 5 0  0 7 0  3 4 9)
  /\ entry (mkMat3 1 5 0  0 7 0  3 4 9) I0 I2 = entry mat_id I0 I2
  /\ entry (mkMat3 1 5 0  0 7 0  3 4 9) I1 I2 = entry mat_id I1 I2
  /\ entry (mkMat3 1 5 0  0 7 0  3 4 9) I1 I0 = entry mat_id I1 I0
  /\ entry (mkMat3 1 5 0  0 7 0  3 4 9) I0 I0 = entry mat_id I0 I0
  /\ from_matrix (mkMat3 1 5 0  0 7 0  3 4 9) = from_matrix mat_id.
Proof.
  split.
  - intros p H. apply (f_equal m22) in H. cbn in H. lra.
  - repeat (split; [reflexivity|]).
    apply (from_matrix_four_entries (mkMat3 1 5 0  0 7 0  3 4 9) mat_id);
      reflexivity.
Defined.

(** * Further properties of the pose algebra *)

(** ** Helper lemmas *)

Ltac pose_eq :=
  unfold __add__, inv_pose, identity_pose; cbn;
  autorewrite with trig; f_equal; ring.

Lemma add_add (p1 p2 p3 : PoseSE2) :
  __add__ (__add__ p1 p2) p3 = __add__ p1 (__add__ p2 p3).
Proof. pose_eq. Qed.

Lemma inv_pose_add_l (p : PoseSE2) : __add__ (inv_pose p) p = identity_pose.
Proof. pose_eq. Qed.

Lemma sin_sqr (t : R) : sin t * sin t = 1 - cos t * cos t.
Proof. pose proof (sin2_cos2' t). lra. Qed.

Lemma inv_pose_add_r (p : PoseSE2) : __add__ p (inv_pose p) = identity_pose.
Proof.
  destruct p as [x y t]. pose proof (sin_sqr t) as H.
  unfold __add__, inv_pose, identity_pose; cbn. f_equal; ring [H].
Qed.

Lemma inv_pose_involutive (p : PoseSE2) : inv_pose (inv_pose p) = p.
Proof.
  destruct p as [x y t]. pose proof (sin_sqr t) as H.
  unfold inv_pose; cbn. autorewrite with trig. f_equal; ring [H].
Qed.

(** The inverse of a composition, from the uniqueness of inverses. *)
Lemma inv_pose_add (p1 p2 : PoseSE2) :
  inv_pose (__add__ p1 p2) = __add__ (inv_pose p2) (inv_pose p1).
Proof.
  assert (E : __add__ (__add__ p1 p2) (__add__ (inv_pose p2) (inv_pose p1))
              = identity_pose).
  { rewrite add_add, <- (add_add p2), inv_pose_add_r, add_identity_l.
    apply inv_pose_add_r. }
  transitivity (__add__ (inv_pose (__add__ p1 p2)) identity_pose).
  - symmetry. apply add_identity_r.
  - rewrite <- E, <- add_add, inv_pose_add_l. apply add_identity_l.
Qed.

Lemma atan_nonpos (t : R) : t <= 0 -> atan t <= 0.
Proof.
  intros [Hlt | Heq].
  - pose proof (atan_increasing t 0 Hlt) as H. rewrite atan_0 in H. lra.
  - subst t. rewrite atan_0. lra.
Qed.

Lemma atan_pos (t : R) : 0 < t -> 0 < atan t.
Proof.
  intros Hlt. pose proof (atan_increasing 0 t Hlt) as H.
  rewrite atan_0 in H. exact H.
Qed.

(** [atan2] always returns an angle of (-PI, PI]. *)
Lemma atan2_range (y x : R) : - PI < atan2 y x <= PI.
Proof.
  pose proof PI_RGT_0 as Hpi. pose proof (atan_bound (y / x)) as [Hlo Hhi].
  unfold atan2.
  destruct (Rlt_dec 0 x) as [Hx | Hx]; [lra|].
  destruct (Rlt_dec x 0) as [Hx' | Hx'].
  - pose proof (Rinv_lt_0_compat x Hx') as Hi.
    destruct (Rle_dec 0 y) as [Hy | Hy].
    + assert (Hq : y / x <= 0) by (unfold Rdiv; nra).
      pose proof (atan_nonpos _ Hq). lra.
    + assert (Hq : 0 < y / x) by (unfold Rdiv; nra).
      pose proof (atan_pos _ Hq). lra.
  - destruct (Rlt_dec 0 y); [lra|]. destruct (Rlt_dec y 0); lra.
Qed.

(** [atan2] sees the direction of [(x, y)] only, not its length. *)
Lemma atan2_scale (k y x : R) : 0 < k -> atan2 (k * y) (k * x) = atan2 y x.
Proof.
  intros Hk. unfold atan2.
  assert (Hq : x <> 0 -> (k * y) / (k * x) = y / x) by (intros; field; lra).
  destruct (Rlt_dec 0 (k * x)); destruct (Rlt_dec 0 x); try (exfalso; nra);
    [rewrite Hq by lra; reflexivity|].
  destruct (Rlt_dec (k * x) 0); destruct (Rlt_dec x 0); try (exfalso; nra).
  - rewrite Hq by lra.
    destruct (Rle_dec 0 (k * y)); destruct (Rle_dec 0 y);
      try (exfalso; nra); reflexivity.
  - destruct (Rlt_dec 0 (k * y)); destruct (Rlt_dec 0 y);
      try (exfalso; nra); [reflexivity|].
    destruct (Rlt_dec (k * y) 0); destruct (Rlt_dec y 0);
      try (exfalso; nra); reflexivity.
Qed.

Lemma from_to_matrix (p : PoseSE2) :
  - PI < pose_theta p <= PI -> from_matrix (to_matrix p) = p.
Proof.
  intros Ht. destruct p as [x y t]. unfold from_matrix; cbn in *.
  rewrite atan2_sin_cos by exact Ht. reflexivity.
Qed.

Lemma PI_gt_3 : 3 < PI.
Proof. pose proof PI2_3_2. lra. Qed.

(** ** The group of poses *)

(** X1. The pose [(0, 0, 0)] is neutral for the composition on both
    sides. *)
Theorem identity_pose_neutral (p : PoseSE2) :
  __add__ p identity_pose = p /\ __add__ identity_pose p = p.
Proof. split; [apply add_identity_r | apply add_identity_l]. Qed.

(** X10. Composition with a pose cancels on the left. *)
Theorem add_cancel_l (p a b : PoseSE2) :
  __add__ p a = __add__ p b -> a = b.
Proof.
  intros H. apply (f_equal (__add__ (inv_pose p))) in H.
  rewrite <- !add_add, inv_pose_add_l, !add_identity_l in H. exact H.
Qed.

Lemma add_cancel_l_witness :
  __add__ (mkPose 1 2 3) (mkPose 4 5 6) = __add__ (mkPose 1 2 3) (mkPose 4 5 6)
  /\ mkPose 4 5 6 = mkPose 4 5 6.
Proof.
  split; [reflexivity|].
  apply (add_cancel_l (mkPose 1 2 3) (mkPose 4 5 6) (mkPose 4 5 6)).
  reflexivity.
Defined.

(** X11. Composition with a pose cancels on the right. *)
Theorem add_cancel_r (p a b : PoseSE2) :
  __add__ a p = __add__ b p -> a = b.
Proof.
  intros H. apply (f_equal (fun q => __add__ q (inv_pose p))) in H.
  rewrite !add_add, inv_pose_add_r, !add_identity_r in H. exact H.
Qed.

Lemma add_cancel_r_witness :
  __add__ (mkPose 4 5 6) (mkPose 1 2 3) = __add__ (mkPose 4 5 6) (mkPose 1 2 3)
  /\ mkPose 4 5 6 = mkPose 4 5 6.
Proof.
  split; [reflexivity|].
  apply (add_cancel_r (mkPose 1 2 3) (mkPose 4 5 6) (mkPose 4 5 6)).
  reflexivity.
Defined.

(** X12. Composition with a pose on the left is a rigid motion: it keeps
    the distance between the positions of two poses and the difference of
    their angles. *)
Theorem add_rigid (p a b : PoseSE2) :
  sq_dist (__add__ p a) (__add__ p b) = sq_dist a b
  /\ pose_theta (__add__ p a) - pose_theta (__add__ p b)
     = pose_theta a - pose_theta b.
Proof.
  pose proof (sin_sqr (pose_theta p)) as H.
  unfold sq_dist, __add__; cbn. split; ring [H].
Qed.

(** ** Poses and matrices *)

(** X13. The matrix of a pose is an SE(2) matrix, of determinant 1. *)
Theorem to_matrix_is_SE2 (p : PoseSE2) :
  is_SE2 (to_matrix p) /\ det (to_matrix p) = 1.
Proof.
  split; [|apply det_to_matrix].
  unfold is_SE2; cbn. pose proof (sin2_cos2' (pose_theta p)).
  repeat split; lra.
Qed.

(** X14. On SE(2) matrices [to_matrix] undoes [from_matrix]. *)
Theorem to_matrix_from_matrix (M : Mat3) :
  is_SE2 M -> to_matrix (from_matrix M) = M.
Proof.
  intros (H11 & H01 & Hc & H20 & H21 & H22).
  destruct M as [a00 a01 a02 a10 a11 a12 a20 a21 a22]; cbn in *.
  destruct (atan2_unit_circle a00 a10 Hc) as (_ & Hcos & Hsin).
  unfold to_matrix, from_matrix; cbn. rewrite Hcos, Hsin.
  subst. reflexivity.
Qed.

Lemma to_matrix_from_matrix_witness :
  is_SE2 (mkMat3 0 (- 1) 5  1 0 7  0 0 1)
  /\ to_matrix (from_matrix (mkMat3 0 (- 1) 5  1 0 7  0 0 1))
     = mkMat3 0 (- 1) 5  1 0 7  0 0 1.
Proof.
  assert (H : is_SE2 (mkMat3 0 (- 1) 5  1 0 7  0 0 1)).
  { unfold is_SE2; cbn. repeat split; lra. }
  split; [exact H|].
  exact (to_matrix_from_matrix (mkMat3 0 (- 1) 5  1 0 7  0 0 1) H).
Defined.

(** X15. The angle of the pose read from any matrix lies in (-PI, PI]. *)
Theorem from_matrix_angle_range (M : Mat3) :
  - PI < pose_theta (from_matrix M) <= PI.
Proof. unfold from_matrix; cbn. apply atan2_range. Qed.

(** X16. [from_matrix] does not look at the length of the first column of
    the rotation block: scaling the entries [0][0] and [1][0] by the same
    positive factor does not change the angle that is read. *)
Theorem from_matrix_scale (k : R) (M N : Mat3) :
  0 < k ->
  entry N I0 I0 = k * entry M I0 I0 ->
  entry N I1 I0 = k * entry M I1 I0 ->
  pose_theta (from_matrix N) = pose_theta (from_matrix M).
Proof.
  intros Hk H00 H10. unfold from_matrix; cbn [pose_theta].
  rewrite H00, H10. apply atan2_scale. exact Hk.
Qed.

Lemma from_matrix_scale_witness :
  0 < 2
  /\ entry (mkMat3 2 0 0  0 2 0  0 0 1) I0 I0 = 2 * entry mat_id I0 I0
  /\ entry (mkMat3 2 0 0  0 2 0  0 0 1) I1 I0 = 2 * entry mat_id I1 I0
  /\ pose_theta (from_matrix (mkMat3 2 0 0  0 2 0  0 0 1))
     = pose_theta (from_matrix mat_id).
Proof.
  assert (H2 : 0 < 2) by lra.
  assert (H00 : entry (mkMat3 2 0 0  0 2 0  0 0 1) I0 I0
                = 2 * entry mat_id I0 I0) by (cbn; lra).
  assert (H10 : entry (mkMat3 2 0 0  0 2 0  0 0 1) I1 I0
                = 2 * entry mat_id I1 I0) by (cbn; lra).
  repeat (split; [assumption|]).
  exact (from_matrix_scale 2 mat_id (mkMat3 2 0 0  0 2 0  0 0 1) H2 H00 H10).
Defined.

(** X17. [to_matrix] does not tell apart angles that differ by a full
    turn, although the poses are different. *)
Theorem to_matrix_full_turn (x y theta : R) :
  to_matrix (mkPose x y (theta + 2 * PI)) = to_matrix (mkPose x y theta)
  /\ mkPose x y (theta + 2 * PI) <> mkPose x y theta.
Proof.
  split.
  - unfold to_matrix; cbn. rewrite cos_plus, sin_plus, cos_2PI, sin_2PI.
    f_equal; ring.
  - intros H. injection H as H. pose proof PI_RGT_0. lra.
Qed.

(** X18. Two poses with angles in (-PI, PI] that have the same matrix are
    equal. *)
Theorem to_matrix_injective (p q : PoseSE2) :
  - PI < pose_theta p <= PI -> - PI < pose_theta q <= PI ->
  to_matrix p = to_matrix q -> p = q.
Proof.
  intros Hp Hq H.
  rewrite <- (from_to_matrix p Hp), <- (from_to_matrix q Hq), H.
  reflexivity.
Qed.

Lemma to_matrix_injective_witness :
  - PI < 1 <= PI
  /\ to_matrix (mkPose 1 2 1) = to_matrix (mkPose 1 2 1)
  /\ mkPose 1 2 1 = mkPose 1 2 1.
Proof.
  assert (H : - PI < 1 <= PI) by (pose proof PI_gt_3; split; lra).
  split; [exact H|]. split; [reflexivity|].
  exact (to_matrix_injective (mkPose 1 2 1) (mkPose 1 2 1) H H eq_refl).
Defined.

(** X19. The check of [test_add]: when the sum of the two angles lies in
    (-PI, PI], the pose read from the product of the two matrices is the
    composition of the poses. *)
Theorem from_matrix_product (p1 p2 : PoseSE2) :
  - PI < pose_theta p1 + pose_theta p2 <= PI ->
  from_matrix (mat_mul (to_matrix p1) (to_matrix p2)) = __add__ p1 p2.
Proof.
  intros Ht. rewrite <- to_matrix_add. apply from_to_matrix. exact Ht.
Qed.

Lemma from_matrix_product_witness :
  - PI < pose_theta (mkPose 1 2 1) + pose_theta (mkPose 3 6 1) <= PI
  /\ from_matrix (mat_mul (to_matrix (mkPose 1 2 1)) (to_matrix (mkPose 3 6 1)))
     = __add__ (mkPose 1 2 1) (mkPose 3 6 1).
Proof.
  assert (H : - PI < pose_theta (mkPose 1 2 1) + pose_theta (mkPose 3 6 1)
              <= PI) by (cbn; pose proof PI_gt_3; split; lra).
  split; [exact H|].
  exact (from_matrix_product (mkPose 1 2 1) (mkPose 3 6 1) H).
Defined.
